(** * Setup.py of odin-wrapper-swift: the xcframework fetcher

    A shallow embedding of [Setup.py] and the properties its specification
    states about it.

    The script reads [Sources/OdinKit.swift], takes the version out of it with
    [re.findall] and the pattern [let version = Q([^Q]+)Q] (Q standing for the
    double quote throughout the comments of this file), builds the download
    URL, downloads the archive into a [tempfile.NamedTemporaryFile] and unpacks
    it with [tarfile] into [Frameworks].

    Layout of this file:
    - [Pattern]: the regular expression and [re.findall] on Python strings;
    - [Posix]: [os.path.join];
    - [Script]: the world the script runs in (file system, network, trace of
      observable actions), the library calls the script makes, the script
      itself ([get_xcframework_version], [xcframework_url], [main]), what is
      observed of a run, and the state machine of the specification;
    - lemmas on the pattern, on paths and on the run;
    - concrete runs, and the theorems on the claims of the specification. *)

From Stdlib Require Import String Ascii List Lia.
From stdpp Require Import gmap strings list fin_maps.
From Equations Require Import Equations.

Set Default Proof Using "Type".

(** ** Strings *)

(** The double quote, written by its code so that no string literal of this
    file has to escape it. *)
Definition dquote : ascii := ascii_of_nat 34.

Lemma string_app_cons (a : ascii) (s t : string) : String a s +:+ t = String a (s +:+ t).
Proof. reflexivity. Qed.

Lemma string_app_nil_l (s : string) : "" +:+ s = s.
Proof. reflexivity. Qed.

Lemma string_length_app (s t : string) :
  String.length (s +:+ t) = String.length s + String.length t.
Proof. induction s as [|a s IH]; [reflexivity|]. rewrite string_app_cons. simpl. lia. Qed.

Module Pattern.

(** ** The regular expression [let version = Q([^Q]+)Q] *)

(** The literal the pattern starts with, closing with the opening quote. *)
Definition version_marker : string := "let version = " +:+ String dquote "".

(** [s.startswith(lit)], returning what follows the literal. *)
Fixpoint match_literal (lit s : string) : option string :=
  match lit with
  | EmptyString => Some s
  | String a lit' =>
      match s with
      | String b s' => if Ascii.eqb a b then match_literal lit' s' else None
      | EmptyString => None
      end
  end.

(** The greedy [[^Q]*]: the longest run of characters other than the quote,
    and what is left. *)
Fixpoint span_not_quote (s : string) : string * string :=
  match s with
  | EmptyString => (EmptyString, EmptyString)
  | String c s' =>
      if Ascii.eqb c dquote then (EmptyString, s)
      else let '(v, r) := span_not_quote s' in (String c v, r)
  end.

(** The whole pattern anchored at the start of [s]: group 1 and the text
    after the match. The group takes the longest run ([+] is greedy), needs at
    least one character, and must be followed by the closing quote. Giving
    characters back cannot help, the character after a shorter run is never
    a quote: [match_here_iff] below proves that this is all the matches there
    are. *)
Definition match_here (s : string) : option (string * string) :=
  match match_literal version_marker s with
  | None => None
  | Some s1 =>
      match span_not_quote s1 with
      | (String c v, String _ r) => Some (String c v, r)
      | _ => None
      end
  end.

Lemma match_literal_app (lit s r : string) :
  match_literal lit s = Some r ↔ s = lit +:+ r.
Proof.
  revert s; induction lit as [|a lit IH]; intros s.
  - rewrite string_app_nil_l. simpl. split; congruence.
  - rewrite string_app_cons. destruct s as [|b s]; simpl; [split; congruence|].
    destruct (Ascii.eqb_spec a b) as [->|Hne].
    + rewrite IH. split; congruence.
    + split; congruence.
Qed.

Lemma span_not_quote_length (s : string) :
  String.length s =
  String.length (span_not_quote s).1 + String.length (span_not_quote s).2.
Proof.
  induction s as [|c s IH]; simpl; [reflexivity|].
  destruct (Ascii.eqb c dquote); simpl; [reflexivity|].
  destruct (span_not_quote s); simpl in *. lia.
Qed.

(** A match consumes at least the marker: what follows it is shorter. *)
Lemma match_here_shorter (s v r : string) :
  match_here s = Some (v, r) → String.length r < String.length s.
Proof.
  unfold match_here.
  destruct (match_literal version_marker s) as [s1|] eqn:E; [|congruence].
  apply match_literal_app in E. subst s. rewrite string_length_app.
  pose proof (span_not_quote_length s1) as L.
  destruct (span_not_quote s1) as [[|c v'] [|q r']]; simpl in *; try congruence.
  intros [= <- <-]. lia.
Qed.

Definition inspect {A} (a : A) : {b | a = b} := exist _ a eq_refl.

(** [re.findall(pattern, text)] for this pattern, which has one group: the
    list of the group's values over the non-overlapping matches, scanning from
    the left; after a match the scan resumes right behind it, where none
    starts it moves on by one character. (The pattern matches no empty string,
    so Python's rule on empty matches never applies.) *)
Equations? findall (s : string) : list string by wf (String.length s) lt :=
  findall EmptyString := [];
  findall (String c s') with inspect (match_here (String c s')) := {
    | exist _ (Some (v, r)) E := v :: findall r;
    | exist _ None _ := findall s' }.
Proof. apply match_here_shorter in E. exact E. Qed.

(** ** What the pattern means *)

Fixpoint has_quote (s : string) : bool :=
  match s with
  | EmptyString => false
  | String c s' => Ascii.eqb c dquote || has_quote s'
  end.

(** How many quotes a string has. *)
Fixpoint count_quotes (s : string) : nat :=
  match s with
  | EmptyString => 0
  | String c s' => (if Ascii.eqb c dquote then 1 else 0) + count_quotes s'
  end.

(** The language of the pattern: [s] starts with a match whose group is [v]
    and which is followed by [rest]. *)
Definition pattern_at (s v rest : string) : Prop :=
  v ≠ "" ∧ has_quote v = false ∧ s = version_marker +:+ v +:+ String dquote rest.

(** The pattern occurs in [text] right after [pre], with group [v]. *)
Definition occurrence (text pre v post : string) : Prop :=
  ∃ s, text = pre +:+ s ∧ pattern_at s v post.

(** ... and nowhere further left. *)
Definition first_occurrence (text pre v post : string) : Prop :=
  occurrence text pre v post ∧
  ∀ pre' v' post', occurrence text pre' v' post' →
    String.length pre ≤ String.length pre'.

End Pattern.

Module Posix.

(** ** [os.path.join] (posixpath) *)

Definition sep : ascii := "/".

Definition startswith_sep (p : string) : bool :=
  match p with
  | String c _ => Ascii.eqb c sep
  | EmptyString => false
  end.

Fixpoint endswith_sep (p : string) : bool :=
  match p with
  | EmptyString => false
  | String c EmptyString => Ascii.eqb c sep
  | String _ p' => endswith_sep p'
  end.

(** One round of the loop of [posixpath.join]: an absolute component discards
    what came before it, a separator is put in only where one is missing. *)
Definition join2 (path b : string) : string :=
  if startswith_sep b then b
  else if (String.eqb path "" || endswith_sep path)%bool then path +:+ b
  else path +:+ String sep b.

Definition os_path_join (a : string) (p : list string) : string :=
  fold_left join2 p a.




End Posix.

Module Script.
Import Pattern Posix.

(** ** The world of the script *)

(** The exceptions the script can end with. None is caught in [Setup.py]. *)
Inductive PyExc : Type :=
| FileNotFoundError     (* [open] of a path that is not there *)
| IndexError            (* [[0]] of an empty list *)
| URLError              (* [urlopen]: no connection, or a failure status *)
| IncompleteRead        (* the response breaks off while it is copied *)
| FileExistsError       (* [NamedTemporaryFile]: no usable name was found *)
| ReadError             (* [tarfile.open]: not an archive *)
| OSError               (* [extractall]: a member cannot be written *)
| PermissionError.      (* closing the temporary file: it cannot be unlinked *)

(** The four kinds of failure the specification tells apart. *)
Inductive ErrorKind : Type := NotFound | FormatError | NetworkError | ExtractionError.

Definition error_kind (e : PyExc) : option ErrorKind :=
  match e with
  | FileNotFoundError => Some NotFound
  | IndexError => Some FormatError
  | URLError | IncompleteRead => Some NetworkError
  | ReadError | OSError => Some ExtractionError
  | FileExistsError | PermissionError => None
  end.

(** What the network answers to a request. *)
Inductive NetOutcome : Type :=
| Refused                                        (* [urlopen] raises *)
| Response (received : string) (complete : bool).
    (* the connection opens and delivers [received]; when [complete] is
       false the stream then breaks instead of ending *)

(** What the script does that can be seen from outside, in order. *)
Inductive Event : Type :=
| EvOpenRead (p : string)                  (* [open(p, r)] *)
| EvPrint (msg : string)                   (* [print] *)
| EvUrlOpen (url : string)                 (* the network request *)
| EvTmpCreate (p : string)                 (* the temporary file appears *)
| EvTmpWrite (p : string) (data : string)  (* [copyfileobj] into it *)
| EvTmpDelete (p : string)                 (* it is closed, which unlinks it *)
| EvResponseClose                          (* the response is closed *)
| EvTarOpen (p : string)                   (* [tarfile.open(p)] *)
| EvExtract (p : string)                   (* a member is written at [p] *)
| EvTarClose.

Global Instance Event_eq_dec : EqDecision Event.
Proof. solve_decision. Defined.

(** The file system maps paths to contents; the trace grows at its end.
    A path is the string the script or the library passes to the operating
    system: the map knows no directories, links or modes, and takes two
    strings for two files. The theorems below conclude on the contents of
    files only where this makes no difference. *)
Record World : Type := mkWorld {
  files : gmap string string;
  trace : list Event
}.

(** What the script finds around it. Nothing of this is in [Setup.py]: the
    results below hold for every environment.
    - [script_path] is [os.path.dirname(__file__)];
    - [network] answers a URL;
    - [tmp_candidates] are the names [tempfile] tries in turn, it takes the
      first that does not exist;
    - [on_disk] is what of the bytes written through the temporary file's
      handle can be read through its name while the handle is still open
      (the script reopens the file by name without flushing);
    - [tar_members] is how [tarfile] reads an archive: its members by name,
      in order, or nothing when the bytes are no archive;
    - [writable] tells where the extraction may write;
    - [unlinkable] tells whether the temporary file can be unlinked when it
      is closed (it cannot, for one, once its directory has lost the write
      permission, which a directory member of the archive can bring about). *)
Record Env : Type := mkEnv {
  script_path : string;
  network : string → NetOutcome;
  tmp_candidates : list string;
  on_disk : string → string;
  tar_members : string → option (list (string * string));
  writable : string → bool;
  unlinkable : string → bool
}.


(** ** Computations that may raise and change the world *)

(** A raised exception keeps the world as it was when it was raised: what was
    written before stays written. *)
Definition IO (A : Type) : Type := World → (PyExc + A) * World.

Global Instance IO_ret : MRet IO := λ A a w, (inr a, w).

Definition raise {A} (e : PyExc) : IO A := λ w, (inl e, w).

Global Instance IO_bind : MBind IO := λ A B k c w,
  match c w with
  | (inr a, w') => k a w'
  | (inl e, w') => (inl e, w')
  end.

Definition emit (e : Event) : IO unit :=
  λ w, (inr tt, mkWorld (files w) (trace w ++ [e])).

Definition read_files : IO (gmap string string) := λ w, (inr (files w), w).

Definition write_file (p data : string) : IO unit :=
  λ w, (inr tt, mkWorld (<[p := data]> (files w)) (trace w)).

Definition remove_file (p : string) : IO unit :=
  λ w, (inr tt, mkWorld (delete p (files w)) (trace w)).

(** [with enter as x: body]: the exit runs however the body ends, and the
    body's exception, if any, goes on once the exit is through. *)
Definition with_ {R A} (enter : IO R) (exit : R → IO unit) (body : R → IO A) : IO A :=
  x ← enter;
  λ w, match body x w with
       | (r, w1) =>
           match exit x w1 with
           | (inr _, w2) => (r, w2)
           | (inl e, w2) => (inl e, w2)
           end
       end.

(** ** The library calls of the script *)

Section Library.
Context (env : Env).

(** [file = open(p, r); text = file.read(); file.close()] *)
Definition open_read (p : string) : IO string :=
  emit (EvOpenRead p);;
  fs ← read_files;
  match fs !! p with
  | Some text => mret text
  | None => raise FileNotFoundError
  end.

Definition print (msg : string) : IO unit := emit (EvPrint msg).

(** [urllib.request.urlopen(url)], entered as a context manager: the body
    of the response and whether it will arrive whole. *)
Definition urlopen (url : string) : IO (string * bool) :=
  emit (EvUrlOpen url);;
  match network env url with
  | Refused => raise URLError
  | Response received complete => mret (received, complete)
  end.

Definition response_exit (response : string * bool) : IO unit :=
  emit EvResponseClose.

(** The first candidate name that is not taken. *)
Definition pick_tmp_name (fs : gmap string string) : option string :=
  List.find (λ p, bool_decide (fs !! p = None)) (tmp_candidates env).

(** [tempfile.NamedTemporaryFile(delete = True)], entered: an empty file
    under a fresh name. *)
Definition NamedTemporaryFile : IO string :=
  fs ← read_files;
  match pick_tmp_name fs with
  | Some tmp => emit (EvTmpCreate tmp);; write_file tmp "";; mret tmp
  | None => raise FileExistsError
  end.

(** Leaving the [with] closes the file, and closing unlinks it; an unlink
    that fails raises out of the [with], in place of whatever the body
    raised, and the file stays. *)
Definition tmp_exit (tmp : string) : IO unit :=
  emit (EvTmpDelete tmp);;
  if unlinkable env tmp then remove_file tmp else raise PermissionError.

(** [shutil.copyfileobj(response, tmp)]: what was received goes into the
    file; a stream that broke raises after that. *)
Definition copyfileobj (response : string * bool) (tmp : string) : IO unit :=
  emit (EvTmpWrite tmp response.1);;
  write_file tmp (on_disk env response.1);;
  if response.2 then mret tt else raise IncompleteRead.

(** [tarfile.open(name)]: reads the file of that name. *)
Definition tarfile_open (name : string) : IO (list (string * string)) :=
  emit (EvTarOpen name);;
  fs ← read_files;
  match fs !! name with
  | None => raise FileNotFoundError
  | Some bytes =>
      match tar_members env bytes with
      | Some members => mret members
      | None => raise ReadError
      end
  end.

(** [tar.extractall(path)], called as the script calls it, with no list of
    members and no extraction filter (none is applied by default up to
    Python 3.13): every member in turn is written at
    [os.path.join(path, name)], over whatever is there; the first member that
    cannot be written raises, and the members before it stay written. The
    members of this model are regular files. *)
Fixpoint extractall (members : list (string * string)) (path : string) : IO unit :=
  match members with
  | [] => mret tt
  | (name, data) :: rest =>
      let target := os_path_join path [name] in
      if writable env target
      then emit (EvExtract target);; write_file target data;; extractall rest path
      else raise OSError
  end.

Definition tar_close : IO unit := emit EvTarClose.

(** ** The script *)

Definition coresdk_url : string := "https://github.com/4Players/odin-sdk".

(** The value [re.findall(...)[0]] of a text. *)
Definition first_match (text : string) : PyExc + string :=
  match findall text with
  | v :: _ => inr v
  | [] => inl IndexError
  end.

Definition version_file : string :=
  os_path_join (script_path env) ["Sources"; "OdinKit.swift"].

Definition get_xcframework_version : IO string :=
  text ← open_read version_file;
  match first_match text with
  | inr v => mret v
  | inl e => raise e
  end.

Definition xcframework_url (xcframework_version : string) : string :=
  coresdk_url +:+ "/releases/download/v" +:+ xcframework_version
    +:+ "/odin-xcframework.tgz".

Definition frameworks_dir : string :=
  os_path_join (script_path env) ["Frameworks"].

Definition main : IO unit :=
  xcframework_version ← get_xcframework_version;
  print ("Downloading Odin.xcframework version " +:+ xcframework_version);;
  with_ (urlopen (xcframework_url xcframework_version)) response_exit (λ response,
    with_ NamedTemporaryFile tmp_exit (λ tmp,
      copyfileobj response tmp;;
      tar ← tarfile_open tmp;
      extractall tar frameworks_dir;;
      tar_close));;
  print "All done :-)".

End Library.

(** The trace a run adds to the one it started with. *)
Definition new_events (w w' : World) : list Event :=
  drop (length (trace w)) (trace w').

(** ** What is observed of a run *)

Section Observations.
Context (env : Env).

(** Where the members of an archive go, in order. *)
Definition targets (members : list (string * string)) (path : string) : list string :=
  (λ m, os_path_join path [m.1]) <$> members.

(** The members with the place of each. *)
Definition placed (members : list (string * string)) (path : string)
    : list (string * string) :=
  (λ m, (os_path_join path [m.1], m.2)) <$> members.

(** The members that get written, with the place of each: those before the
    first one whose place is not writable. *)
Fixpoint written (members : list (string * string)) (path : string)
    : list (string * string) :=
  match members with
  | [] => []
  | (name, data) :: rest =>
      let target := os_path_join path [name] in
      if writable env target then (target, data) :: written rest path else []
  end.

Definition all_writable (members : list (string * string)) (path : string) : bool :=
  forallb (writable env) (targets members path).

(** Writing files one after the other. *)
Definition put_all (l : list (string * string)) (fs : gmap string string)
    : gmap string string :=
  fold_left (λ m kv, <[kv.1 := kv.2]> m) l fs.

Definition announce (v : string) : Event :=
  EvPrint ("Downloading Odin.xcframework version " +:+ v).

Definition request (v : string) : Event := EvUrlOpen (xcframework_url v).

Definition finished : Event := EvPrint "All done :-)".

(** The file system once the archive [body], buffered in [tmp], has had the
    members [l] written and the temporary file is gone again. *)
Definition unpacked (tmp body : string) (l : list (string * string))
    (fs : gmap string string) : gmap string string :=
  delete tmp (put_all l (<[tmp := on_disk env body]> fs)).

(** The same when the temporary file could not be unlinked. *)
Definition stuck (tmp body : string) (l : list (string * string))
    (fs : gmap string string) : gmap string string :=
  put_all l (<[tmp := on_disk env body]> fs).

(** The ways a run can go, from the world [w] it starts in: how it ends, the
    file system it leaves, and the events it adds to the trace. *)
Inductive Outcome (w : World) : PyExc + unit → gmap string string → list Event → Prop :=
| out_no_file :
    files w !! version_file env = None →
    Outcome w (inl FileNotFoundError) (files w) [EvOpenRead (version_file env)]
| out_no_version text :
    files w !! version_file env = Some text →
    first_match text = inl IndexError →
    Outcome w (inl IndexError) (files w) [EvOpenRead (version_file env)]
| out_refused text v :
    files w !! version_file env = Some text →
    first_match text = inr v →
    network env (xcframework_url v) = Refused →
    Outcome w (inl URLError) (files w)
      [EvOpenRead (version_file env); announce v; request v]
| out_no_tmp text v body complete :
    files w !! version_file env = Some text →
    first_match text = inr v →
    network env (xcframework_url v) = Response body complete →
    pick_tmp_name env (files w) = None →
    Outcome w (inl FileExistsError) (files w)
      [EvOpenRead (version_file env); announce v; request v; EvResponseClose]
| out_broken text v body tmp :
    files w !! version_file env = Some text →
    first_match text = inr v →
    network env (xcframework_url v) = Response body false →
    pick_tmp_name env (files w) = Some tmp →
    unlinkable env tmp = true →
    Outcome w (inl IncompleteRead) (unpacked tmp body [] (files w))
      [EvOpenRead (version_file env); announce v; request v;
       EvTmpCreate tmp; EvTmpWrite tmp body; EvTmpDelete tmp; EvResponseClose]
| out_not_archive text v body tmp :
    files w !! version_file env = Some text →
    first_match text = inr v →
    network env (xcframework_url v) = Response body true →
    pick_tmp_name env (files w) = Some tmp →
    tar_members env (on_disk env body) = None →
    unlinkable env tmp = true →
    Outcome w (inl ReadError) (unpacked tmp body [] (files w))
      [EvOpenRead (version_file env); announce v; request v;
       EvTmpCreate tmp; EvTmpWrite tmp body; EvTarOpen tmp;
       EvTmpDelete tmp; EvResponseClose]
| out_unwritable text v body tmp members :
    files w !! version_file env = Some text →
    first_match text = inr v →
    network env (xcframework_url v) = Response body true →
    pick_tmp_name env (files w) = Some tmp →
    tar_members env (on_disk env body) = Some members →
    all_writable members (frameworks_dir env) = false →
    unlinkable env tmp = true →
    Outcome w (inl OSError)
      (unpacked tmp body (written members (frameworks_dir env)) (files w))
      ([EvOpenRead (version_file env); announce v; request v;
        EvTmpCreate tmp; EvTmpWrite tmp body; EvTarOpen tmp]
       ++ (EvExtract <$> (written members (frameworks_dir env)).*1)
       ++ [EvTmpDelete tmp; EvResponseClose])
| out_done text v body tmp members :
    files w !! version_file env = Some text →
    first_match text = inr v →
    network env (xcframework_url v) = Response body true →
    pick_tmp_name env (files w) = Some tmp →
    tar_members env (on_disk env body) = Some members →
    all_writable members (frameworks_dir env) = true →
    unlinkable env tmp = true →
    Outcome w (inr tt)
      (unpacked tmp body (written members (frameworks_dir env)) (files w))
      ([EvOpenRead (version_file env); announce v; request v;
        EvTmpCreate tmp; EvTmpWrite tmp body; EvTarOpen tmp]
       ++ (EvExtract <$> (written members (frameworks_dir env)).*1)
       ++ [EvTarClose; EvTmpDelete tmp; EvResponseClose; finished])
| out_broken_stuck text v body tmp :
    files w !! version_file env = Some text →
    first_match text = inr v →
    network env (xcframework_url v) = Response body false →
    pick_tmp_name env (files w) = Some tmp →
    unlinkable env tmp = false →
    Outcome w (inl PermissionError) (stuck tmp body [] (files w))
      [EvOpenRead (version_file env); announce v; request v;
       EvTmpCreate tmp; EvTmpWrite tmp body; EvTmpDelete tmp; EvResponseClose]
| out_not_archive_stuck text v body tmp :
    files w !! version_file env = Some text →
    first_match text = inr v →
    network env (xcframework_url v) = Response body true →
    pick_tmp_name env (files w) = Some tmp →
    tar_members env (on_disk env body) = None →
    unlinkable env tmp = false →
    Outcome w (inl PermissionError) (stuck tmp body [] (files w))
      [EvOpenRead (version_file env); announce v; request v;
       EvTmpCreate tmp; EvTmpWrite tmp body; EvTarOpen tmp;
       EvTmpDelete tmp; EvResponseClose]
| out_unwritable_stuck text v body tmp members :
    files w !! version_file env = Some text →
    first_match text = inr v →
    network env (xcframework_url v) = Response body true →
    pick_tmp_name env (files w) = Some tmp →
    tar_members env (on_disk env body) = Some members →
    all_writable members (frameworks_dir env) = false →
    unlinkable env tmp = false →
    Outcome w (inl PermissionError)
      (stuck tmp body (written members (frameworks_dir env)) (files w))
      ([EvOpenRead (version_file env); announce v; request v;
        EvTmpCreate tmp; EvTmpWrite tmp body; EvTarOpen tmp]
       ++ (EvExtract <$> (written members (frameworks_dir env)).*1)
       ++ [EvTmpDelete tmp; EvResponseClose])
| out_extracted_stuck text v body tmp members :
    files w !! version_file env = Some text →
    first_match text = inr v →
    network env (xcframework_url v) = Response body true →
    pick_tmp_name env (files w) = Some tmp →
    tar_members env (on_disk env body) = Some members →
    all_writable members (frameworks_dir env) = true →
    unlinkable env tmp = false →
    Outcome w (inl PermissionError)
      (stuck tmp body (written members (frameworks_dir env)) (files w))
      ([EvOpenRead (version_file env); announce v; request v;
        EvTmpCreate tmp; EvTmpWrite tmp body; EvTarOpen tmp]
       ++ (EvExtract <$> (written members (frameworks_dir env)).*1)
       ++ [EvTarClose; EvTmpDelete tmp; EvResponseClose]).

(** The URLs a trace asks the network for, in order. *)
Definition requests (t : list Event) : list string :=
  omap (λ e, match e with EvUrlOpen url => Some url | _ => None end) t.

(** The lines a trace prints, in order. *)
Definition prints (t : list Event) : list string :=
  omap (λ e, match e with EvPrint msg => Some msg | _ => None end) t.

(** The directory of the script as a prefix of the paths below it: with one
    separator behind it, or empty for the current directory. *)
Definition script_prefix : string :=
  if (String.eqb (script_path env) "" || endswith_sep (script_path env))%bool
  then script_path env
  else script_path env +:+ String sep "".

(** What a list of writes leaves at [p]: the data of the last write there. *)
Fixpoint stored (l : list (string * string)) (p : string) : option string :=
  match l with
  | [] => None
  | (k, d) :: rest =>
      match stored rest p with
      | Some d' => Some d'
      | None => if decide (k = p) then Some d else None
      end
  end.

End Observations.

(** ** The state machine of the specification

    Idle, VersionResolved, Downloaded, Extracted, Done, in this order. The
    machine is run over the trace: [advance] tells which events each phase
    allows and which of them close it. *)

Inductive Phase : Type := Idle | VersionResolved | Downloaded | Extracted | Done.

Global Instance Phase_eq_dec : EqDecision Phase.
Proof. solve_decision. Defined.





End Script.

Import Pattern Posix Script.

(** * Lemmas on the pattern *)

Section PatternFacts.

Lemma string_app_nil_r (s : string) : s +:+ "" = s.
Proof. induction s as [|a s IH]; [reflexivity|]. by rewrite string_app_cons, IH. Qed.

Lemma string_app_assoc (s t u : string) : (s +:+ t) +:+ u = s +:+ t +:+ u.
Proof. induction s as [|a s IH]; [reflexivity|]. by rewrite !string_app_cons, IH. Qed.

Lemma string_app_eq_nil (s t : string) : s +:+ t = "" → s = "" ∧ t = "".
Proof. destruct s; [by rewrite string_app_nil_l|by rewrite string_app_cons]. Qed.

(** Two splits of one string at the same position are the same split. *)
Lemma string_app_inj_length (s s' t t' : string) :
  s +:+ t = s' +:+ t' → String.length s = String.length s' → s = s' ∧ t = t'.
Proof.
  revert s'; induction s as [|a s IH]; intros [|a' s']; simpl; try lia.
  - by rewrite !string_app_nil_l.
  - rewrite !string_app_cons. intros [= -> H] L. destruct (IH s' H) as [-> ->]; [lia|done].
Qed.

Lemma has_quote_app (s t : string) :
  has_quote (s +:+ t) = (has_quote s || has_quote t)%bool.
Proof.
  induction s as [|c s IH]; [reflexivity|].
  rewrite string_app_cons. simpl. rewrite IH. by rewrite orb_assoc.
Qed.

(** The greedy run stops at the first quote and nowhere else. *)
Lemma span_not_quote_quote (v r : string) :
  has_quote v = false → span_not_quote (v +:+ String dquote r) = (v, String dquote r).
Proof.
  induction v as [|c v IH]; intros H.
  - rewrite string_app_nil_l. simpl. by rewrite ?Ascii.eqb_refl.
  - rewrite string_app_cons. simpl in *. apply orb_false_iff in H as [-> H].
    by rewrite (IH H).
Qed.

Lemma span_not_quote_inv (s v r : string) :
  span_not_quote s = (v, r) →
  s = v +:+ r ∧ has_quote v = false ∧ (r = "" ∨ ∃ r', r = String dquote r').
Proof.
  revert v r; induction s as [|c s IH]; intros v r; simpl.
  - intros [= <- <-]. auto.
  - destruct (Ascii.eqb_spec c dquote) as [->|Hc].
    + intros [= <- <-]. rewrite string_app_nil_l. eauto.
    + destruct (span_not_quote s) as [v0 r0]. intros [= <- <-].
      destruct (IH v0 r0 eq_refl) as (-> & Hq & Hr).
      rewrite string_app_cons. simpl. rewrite Hq.
      by destruct (Ascii.eqb_spec c dquote).
Qed.

(** The anchored matcher finds exactly the matches of the pattern; a
    position has at most one. *)
Lemma match_here_iff (s v r : string) :
  match_here s = Some (v, r) ↔ pattern_at s v r.
Proof.
  unfold match_here, pattern_at. split.
  - destruct (match_literal version_marker s) as [s1|] eqn:E; [|congruence].
    apply match_literal_app in E.
    destruct (span_not_quote s1) as [v0 r0] eqn:Es.
    apply span_not_quote_inv in Es as (-> & Hq & Hr).
    destruct v0 as [|c v0]; [congruence|].
    destruct r0 as [|c' r0]; [congruence|].
    intros [= <- <-]. destruct Hr as [|[r' [= -> ->]]]; [congruence|].
    by rewrite E.
  - intros (Hv & Hq & ->).
    assert (match_literal version_marker
              (version_marker +:+ v +:+ String dquote r)
            = Some (v +:+ String dquote r)) as -> by by apply match_literal_app.
    rewrite span_not_quote_quote by done.
    by destruct v.
Qed.

Lemma pattern_at_unique (s v r v' r' : string) :
  pattern_at s v r → pattern_at s v' r' → v = v' ∧ r = r'.
Proof. rewrite <- !match_here_iff. intros ->. by intros [= -> ->]. Qed.

Lemma findall_cons (c : ascii) (s : string) :
  findall (String c s) =
  match match_here (String c s) with
  | Some (v, r) => v :: findall r
  | None => findall s
  end.
Proof.
  rewrite findall_equation_2. unfold findall_unfold_clause_2.
  destruct (inspect (match_here (String c s))) as [[[v r]|] E]; simpl;
    by rewrite E.
Qed.

Lemma pattern_at_nonempty (s v r : string) : pattern_at s v r → s ≠ "".
Proof. intros (_ & _ & ->) [=]. Qed.

Lemma occurrence_here (s v post : string) :
  occurrence s "" v post ↔ pattern_at s v post.
Proof.
  split.
  - intros (s' & E & H). rewrite string_app_nil_l in E. by subst.
  - intros H. exists s. by rewrite string_app_nil_l.
Qed.

Lemma occurrence_later (c : ascii) (s pre v post : string) :
  occurrence (String c s) (String c pre) v post ↔ occurrence s pre v post.
Proof.
  split; intros (s' & E & H); exists s'; split; try done.
  - rewrite string_app_cons in E. congruence.
  - rewrite string_app_cons. congruence.
Qed.

Lemma occurrence_cons_inv (c : ascii) (s pre v post : string) :
  occurrence (String c s) pre v post →
  (pre = "" ∧ pattern_at (String c s) v post) ∨
  (∃ pre', pre = String c pre' ∧ occurrence s pre' v post).
Proof.
  intros H. destruct pre as [|c' pre].
  - left. split; [done|]. by apply occurrence_here.
  - right. destruct H as (s' & E & H). rewrite string_app_cons in E.
    injection E as <- E. exists pre. split; [done|]. by exists s'.
Qed.

(** The head of [findall] is the leftmost occurrence; the list is empty
    exactly when the pattern occurs nowhere. *)
Lemma findall_head (text : string) :
  match findall text with
  | v :: _ => ∃ pre post, first_occurrence text pre v post
  | [] => ∀ pre v post, ¬ occurrence text pre v post
  end.
Proof.
  induction text as [|c s IH].
  - rewrite findall_equation_1. intros pre v post (s' & E & H).
    symmetry in E. apply string_app_eq_nil in E as [_ ->].
    by apply pattern_at_nonempty in H.
  - rewrite findall_cons. destruct (match_here (String c s)) as [[v r]|] eqn:E.
    + apply match_here_iff in E. exists "", r. split.
      * by apply occurrence_here.
      * intros. simpl. lia.
    + assert (∀ v post, ¬ pattern_at (String c s) v post) as Hno.
      { intros v post H. apply match_here_iff in H. congruence. }
      destruct (findall s) as [|v l].
      * intros pre v post H.
        apply occurrence_cons_inv in H as [[_ H]|(pre' & _ & H)].
        -- by apply Hno in H.
        -- by apply IH in H.
      * destruct IH as (pre & post & Hocc & Hfirst).
        exists (String c pre), post. split.
        -- by apply occurrence_later.
        -- intros pre' v' post' H.
           apply occurrence_cons_inv in H as [[_ H]|(pre'' & -> & H)].
           ++ by apply Hno in H.
           ++ apply Hfirst in H. simpl. lia.
Qed.

(** There is one leftmost occurrence at most. *)
Lemma first_occurrence_unique (text pre v post pre' v' post' : string) :
  first_occurrence text pre v post → first_occurrence text pre' v' post' →
  pre = pre' ∧ v = v' ∧ post = post'.
Proof.
  intros [H1 F1] [H2 F2].
  pose proof (F1 _ _ _ H2). pose proof (F2 _ _ _ H1).
  destruct H1 as (s1 & E1 & P1), H2 as (s2 & E2 & P2).
  destruct (string_app_inj_length pre pre' s1 s2) as [-> ->]; [congruence|lia|].
  destruct (pattern_at_unique _ _ _ _ _ P1 P2) as [-> ->]. done.
Qed.

Lemma first_match_Some (text v : string) :
  first_match text = inr v ↔ ∃ pre post, first_occurrence text pre v post.
Proof.
  unfold first_match. pose proof (findall_head text) as H.
  destruct (findall text) as [|v0 l]; split.
  - congruence.
  - intros (pre & post & [Hocc _]). by apply H in Hocc.
  - by intros [= <-].
  - intros (pre & post & H'). destruct H as (pre0 & post0 & H).
    destruct (first_occurrence_unique _ _ _ _ _ _ _ H H') as (_ & -> & _). done.
Qed.

Lemma first_match_None (text : string) (e : PyExc) :
  first_match text = inl e ↔ e = IndexError ∧ ∀ pre v post, ¬ occurrence text pre v post.
Proof.
  unfold first_match. pose proof (findall_head text) as H.
  destruct (findall text) as [|v0 l]; split.
  - intros [= <-]. done.
  - by intros [-> _].
  - congruence.
  - intros [_ Hno]. destruct H as (pre & post & [Hocc _]). by apply Hno in Hocc.
Qed.

End PatternFacts.

(** * Lemmas on paths *)

Section PathFacts.

Lemma endswith_sep_app (p q : string) :
  q ≠ "" → endswith_sep (p +:+ q) = endswith_sep q.
Proof.
  intros Hq. induction p as [|c p IH]; [done|].
  rewrite string_app_cons. simpl. rewrite IH.
  destruct (p +:+ q) eqn:E; [|done].
  by apply string_app_eq_nil in E as [_ ?].
Qed.



End PathFacts.

(** * Lemmas on the run *)

Section RunFacts.
Context (env : Env).

Lemma extractall_run (members : list (string * string)) (path : string) (w : World) :
  extractall env members path w =
  (if all_writable env members path then inr tt else inl OSError,
   mkWorld (put_all (written env members path) (files w))
           (trace w ++ (EvExtract <$> (written env members path).*1))).
Proof.
  revert w; induction members as [|[name data] rest IH]; intros [fs tr].
  - simpl. by rewrite app_nil_r.
  - unfold all_writable. simpl.
    destruct (writable env (join2 path name)) eqn:W; simpl.
    + unfold mbind, IO_bind, emit, write_file. simpl. rewrite IH. simpl.
      by rewrite <- app_assoc.
    + by rewrite app_nil_r.
Qed.

Lemma written_all (members : list (string * string)) (path : string) :
  all_writable env members path = true →
  written env members path = placed members path.
Proof.
  unfold all_writable. induction members as [|[name data] rest IH]; simpl; [done|].
  intros [-> H]%andb_true_iff. by rewrite IH.
Qed.


(** Every run goes one of these ways. *)
Lemma main_outcome (w : World) :
  ∃ r fs t, main env w = (r, mkWorld fs (trace w ++ t)) ∧ Outcome env w r fs t.
Proof.
  destruct w as [fs tr].
  unfold main, get_xcframework_version, open_read, print, with_, urlopen,
    NamedTemporaryFile, copyfileobj, tarfile_open, tar_close, tmp_exit,
    response_exit, read_files, write_file, remove_file, emit, raise,
    mbind, mret, IO_bind, IO_ret.
  simpl.
  destruct (fs !! version_file env) as [text|] eqn:Hvf; simpl.
  2: { eexists _, _, _. split; [done|]. by constructor. }
  destruct (first_match text) as [e|v] eqn:Hv; simpl.
  { pose proof Hv as Hv'. apply first_match_None in Hv' as [-> _].
    eexists _, _, _. split; [done|]. by econstructor. }
  destruct (network env (xcframework_url v)) as [|body complete] eqn:Hnet; simpl.
  { eexists _, _, _. split; [by rewrite <- !app_assoc|]. by econstructor. }
  destruct (pick_tmp_name env fs) as [tmp|] eqn:Htmp; simpl.
  2: { eexists _, _, _. split; [by rewrite <- !app_assoc|]. by econstructor. }
  rewrite insert_insert_eq.
  destruct complete; simpl.
  2: { destruct (unlinkable env tmp) eqn:Hun; simpl;
         (eexists _, _, _; split; [by rewrite <- !app_assoc|]);
         [by eapply out_broken|by eapply out_broken_stuck]. }
  rewrite lookup_insert_eq.
  destruct (tar_members env (on_disk env body)) as [members|] eqn:Htar; simpl.
  2: { destruct (unlinkable env tmp) eqn:Hun; simpl;
         (eexists _, _, _; split; [by rewrite <- !app_assoc|]);
         [by eapply out_not_archive|by eapply out_not_archive_stuck]. }
  rewrite extractall_run. simpl.
  destruct (all_writable env members (frameworks_dir env)) eqn:Hall; simpl;
    destruct (unlinkable env tmp) eqn:Hun; simpl.
  - eexists _, _, _. split; [|by eapply out_done].
    unfold unpacked. simpl. f_equal. f_equal. rewrite <- !app_assoc. done.
  - eexists _, _, _. split; [|by eapply out_extracted_stuck].
    unfold stuck. simpl. f_equal. f_equal. rewrite <- !app_assoc. done.
  - eexists _, _, _. split; [|by eapply out_unwritable].
    unfold unpacked. simpl. f_equal. f_equal. rewrite <- !app_assoc. done.
  - eexists _, _, _. split; [|by eapply out_unwritable_stuck].
    unfold stuck. simpl. f_equal. f_equal. rewrite <- !app_assoc. done.
Qed.

Lemma new_events_app (w : World) (fs : gmap string string) (t : list Event) :
  new_events w (mkWorld fs (trace w ++ t)) = t.
Proof. unfold new_events. simpl. by rewrite drop_app_length. Qed.

(** The same, on the result, the files and the new events of the run. *)
Lemma main_run (w : World) :
  Outcome env w (main env w).1 (files (main env w).2) (new_events w (main env w).2).
Proof.
  destruct (main_outcome w) as (r & fs & t & -> & H). simpl.
  by rewrite new_events_app.
Qed.

(** *** Requests *)

Lemma requests_app (t1 t2 : list Event) :
  requests (t1 ++ t2) = requests t1 ++ requests t2.
Proof. apply omap_app. Qed.

Lemma requests_extract (l : list string) : requests (EvExtract <$> l) = [].
Proof. induction l as [|p l IH]; [done|]. simpl. apply IH. Qed.

(** A run that gets past the version asks for one URL, the one built from
    the version, and no run asks for more. *)
Lemma requests_outcome (w : World) r fs t :
  Outcome env w r fs t →
  match files w !! version_file env with
  | Some text =>
      match first_match text with
      | inr v => requests t = [xcframework_url v]
      | inl _ => requests t = []
      end
  | None => requests t = []
  end.
Proof.
  destruct 1;
    repeat match goal with
           | H : files w !! _ = _ |- _ => rewrite H; clear H
           | H : first_match _ = _ |- _ => rewrite H; clear H
           end;
    rewrite ?requests_app, ?requests_extract; done.
Qed.

(** *** Files *)

Lemma put_all_lookup (l : list (string * string)) (fs : gmap string string) (p : string) :
  put_all l fs !! p = match stored l p with Some d => Some d | None => fs !! p end.
Proof.
  revert fs; induction l as [|[k d] l IH]; intros fs; [done|].
  unfold put_all in *. simpl. rewrite IH.
  destruct (stored l p); [done|].
  destruct (decide (k = p)) as [->|Hne].
  - by rewrite lookup_insert_eq.
  - by rewrite lookup_insert_ne.
Qed.

Lemma unpacked_lookup tmp body l (fs : gmap string string) (p : string) :
  unpacked env tmp body l fs !! p =
  if decide (tmp = p) then None
  else match stored l p with Some d => Some d | None => fs !! p end.
Proof.
  unfold unpacked. destruct (decide (tmp = p)) as [->|Hne].
  - by rewrite lookup_delete_eq.
  - rewrite lookup_delete_ne, put_all_lookup by done.
    by rewrite lookup_insert_ne.
Qed.

Lemma pick_tmp_name_fresh (fs : gmap string string) (tmp : string) :
  pick_tmp_name env fs = Some tmp → fs !! tmp = None.
Proof.
  unfold pick_tmp_name. intros H. apply find_some in H as [_ H].
  by apply bool_decide_eq_true in H.
Qed.

(** A run that completes went all the way. *)
Lemma main_done (w : World) :
  (main env w).1 = inr tt →
  ∃ text v body tmp members,
    files w !! version_file env = Some text ∧
    first_match text = inr v ∧
    network env (xcframework_url v) = Response body true ∧
    pick_tmp_name env (files w) = Some tmp ∧
    tar_members env (on_disk env body) = Some members ∧
    all_writable env members (frameworks_dir env) = true ∧
    files (main env w).2 =
      unpacked env tmp body (placed members (frameworks_dir env)) (files w) ∧
    new_events w (main env w).2 =
      [EvOpenRead (version_file env); announce v; request v;
       EvTmpCreate tmp; EvTmpWrite tmp body; EvTarOpen tmp]
      ++ (EvExtract <$> (placed members (frameworks_dir env)).*1)
      ++ [EvTarClose; EvTmpDelete tmp; EvResponseClose; finished].
Proof.
  intros Hok. pose proof (main_run w) as H.
  inversion H; try congruence.
  exists text, v, body, tmp, members. rewrite <- written_all by done. done.
Qed.


(** *** The state machine *)




End RunFacts.

(** Membership in a trace that is written out. *)
Ltac pick_disjunct :=
  first [ done | solve [eauto] | left; pick_disjunct | right; pick_disjunct ].

Ltac in_trace :=
  unfold announce, request, finished in *;
  repeat match goal with
         | H : _ ∈ _ ++ _ |- _ => apply elem_of_app in H
         | H : _ ∈ _ :: _ |- _ => apply elem_of_cons in H
         | H : _ ∈ [] |- _ => apply elem_of_nil in H
         | H : _ ∈ _ <$> _ |- _ => apply list_elem_of_fmap in H
         | H : _ ∨ _ |- _ => destruct H
         | H : ∃ _, _ |- _ => destruct H
         | H : _ ∧ _ |- _ => destruct H
         | H : False |- _ => destruct H
         | H : @eq Event _ _ |- _ => first [discriminate H | injection H as H; subst]
         end;
  rewrite ?elem_of_app, ?elem_of_cons, ?elem_of_nil, ?list_elem_of_fmap;
  pick_disjunct.

(** * Concrete runs *)

Module Examples.

Definition quoted (v : string) : string := String dquote v +:+ String dquote "".

(** A checkout in [/repo] whose [OdinKit.swift] declares version 1.2.3; the
    release of that version is an archive of two files. *)
Definition swift_source : string :=
  "public struct OdinKit { public static let version = "
    +:+ quoted "1.2.3" +:+ " }".

Definition release_url : string :=
  "https://github.com/4Players/odin-sdk/releases/download/v1.2.3/odin-xcframework.tgz".

Definition release_members : list (string * string) :=
  [("Odin.xcframework/Info.plist", "plist"); ("Odin.xcframework/libodin.a", "code")].

Definition sample_env : Env := {|
  script_path := "/repo";
  network := λ url, if String.eqb url release_url then Response "tgz" true else Refused;
  tmp_candidates := ["/tmp/tmp0"; "/tmp/tmp1"];
  on_disk := λ bytes, bytes;
  tar_members := λ bytes, if String.eqb bytes "tgz" then Some release_members else None;
  writable := λ _, true;
  unlinkable := λ _, true
|}.

Definition world_with (text : string) : World :=
  mkWorld (<["/repo/Sources/OdinKit.swift" := text]> (<["/tmp/tmp0" := "busy"]> ∅)) [].

Definition sample_world : World := world_with swift_source.

(** A checkout without the Swift source. *)
Definition bare_world : World := mkWorld (<["/tmp/tmp0" := "busy"]> ∅) [].

(** A source that declares the version twice. *)
Definition twice_source : string :=
  "let version = " +:+ quoted "1.0.0" +:+ "; let version = " +:+ quoted "2.0.0".

(** A source without the declaration. *)
Definition other_source : string := "let build = " +:+ quoted "1.2.3".

(** A version that is no version number. *)
Definition odd_version : string := "../a b/c?d".

(** An environment that serves whatever is asked for, with an archive of
    one member whose name is absolute. *)
Definition open_env : Env := {|
  script_path := "/repo";
  network := λ _, Response "tgz" true;
  tmp_candidates := ["/tmp/tmp0"; "/tmp/tmp1"];
  on_disk := λ bytes, bytes;
  tar_members := λ _, Some [("/home/user/.profile", "payload")];
  writable := λ _, true;
  unlinkable := λ _, true
|}.

(** The release is there but its bytes are no archive. *)
Definition corrupt_env : Env := {|
  script_path := "/repo";
  network := λ _, Response "garbage" true;
  tmp_candidates := ["/tmp/tmp0"; "/tmp/tmp1"];
  on_disk := λ bytes, bytes;
  tar_members := λ _, None;
  writable := λ _, true;
  unlinkable := λ _, true
|}.

(** The connection opens and breaks after two bytes. *)
Definition flaky_env : Env := {|
  script_path := "/repo";
  network := λ _, Response "tg" false;
  tmp_candidates := ["/tmp/tmp0"; "/tmp/tmp1"];
  on_disk := λ bytes, bytes;
  tar_members := λ _, None;
  writable := λ _, true;
  unlinkable := λ _, true
|}.

(** Nobody answers. *)
Definition refusing_env : Env := {|
  script_path := "/repo";
  network := λ _, Refused;
  tmp_candidates := ["/tmp/tmp0"; "/tmp/tmp1"];
  on_disk := λ bytes, bytes;
  tar_members := λ _, None;
  writable := λ _, true;
  unlinkable := λ _, true
|}.

(** The second member of the release cannot be written. *)
Definition readonly_env : Env := {|
  script_path := "/repo";
  network := λ url, if String.eqb url release_url then Response "tgz" true else Refused;
  tmp_candidates := ["/tmp/tmp0"; "/tmp/tmp1"];
  on_disk := λ bytes, bytes;
  tar_members := λ bytes, if String.eqb bytes "tgz" then Some release_members else None;
  writable := λ p, negb (String.eqb p "/repo/Frameworks/Odin.xcframework/libodin.a");
  unlinkable := λ _, true
|}.

(** The release unpacks, but the temporary file cannot be unlinked when it
    is closed. *)
Definition stuck_env : Env := {|
  script_path := "/repo";
  network := λ url, if String.eqb url release_url then Response "tgz" true else Refused;
  tmp_candidates := ["/tmp/tmp0"; "/tmp/tmp1"];
  on_disk := λ bytes, bytes;
  tar_members := λ bytes, if String.eqb bytes "tgz" then Some release_members else None;
  writable := λ _, true;
  unlinkable := λ _, false
|}.




Example run_sample :
  main sample_env sample_world =
  (inr tt,
   mkWorld
     (<["/repo/Frameworks/Odin.xcframework/libodin.a" := "code"]>
        (<["/repo/Frameworks/Odin.xcframework/Info.plist" := "plist"]>
           (files sample_world)))
     [EvOpenRead "/repo/Sources/OdinKit.swift";
      EvPrint "Downloading Odin.xcframework version 1.2.3";
      EvUrlOpen release_url;
      EvTmpCreate "/tmp/tmp1"; EvTmpWrite "/tmp/tmp1" "tgz"; EvTarOpen "/tmp/tmp1";
      EvExtract "/repo/Frameworks/Odin.xcframework/Info.plist";
      EvExtract "/repo/Frameworks/Odin.xcframework/libodin.a";
      EvTarClose; EvTmpDelete "/tmp/tmp1"; EvResponseClose;
      EvPrint "All done :-)"]).
Proof. by vm_compute. Qed.

Example run_corrupt :
  main corrupt_env sample_world =
  (inl ReadError,
   mkWorld (files sample_world)
     [EvOpenRead "/repo/Sources/OdinKit.swift";
      EvPrint "Downloading Odin.xcframework version 1.2.3";
      EvUrlOpen release_url;
      EvTmpCreate "/tmp/tmp1"; EvTmpWrite "/tmp/tmp1" "garbage";
      EvTarOpen "/tmp/tmp1"; EvTmpDelete "/tmp/tmp1"; EvResponseClose]).
Proof. by vm_compute. Qed.

Example run_flaky :
  main flaky_env sample_world =
  (inl IncompleteRead,
   mkWorld (files sample_world)
     [EvOpenRead "/repo/Sources/OdinKit.swift";
      EvPrint "Downloading Odin.xcframework version 1.2.3";
      EvUrlOpen release_url;
      EvTmpCreate "/tmp/tmp1"; EvTmpWrite "/tmp/tmp1" "tg";
      EvTmpDelete "/tmp/tmp1"; EvResponseClose]).
Proof. by vm_compute. Qed.

Example findall_twice : findall twice_source = ["1.0.0"; "2.0.0"].
Proof. reflexivity. Qed.

Example findall_empty_value : findall ("let version = " +:+ quoted "") = [].
Proof. reflexivity. Qed.

End Examples.

(** * The claims of the specification *)

Section Claims.
Import Examples.

Lemma no_occurrence_iff (text : string) :
  findall text = [] ↔ ∀ pre v post, ¬ occurrence text pre v post.
Proof.
  pose proof (findall_head text) as H. destruct (findall text) as [|v l].
  - done.
  - split; [done|]. intros Hno. destruct H as (pre & post & [H _]).
    by apply Hno in H.
Qed.

(** What [get_xcframework_version] returns when the file is there. *)
Lemma get_xcframework_version_run (env : Env) (w : World) (text : string) :
  files w !! version_file env = Some text →
  (get_xcframework_version env w).1 = first_match text.
Proof.
  intros H. destruct w as [fs tr]. simpl in H.
  unfold get_xcframework_version, open_read, read_files, emit, raise,
    mbind, mret, IO_bind, IO_ret. simpl. rewrite H.
  by destruct (first_match text).
Qed.

(** C1. When the text of the version file contains the marker followed by
    a quoted value, there is a leftmost such place, its value is the version
    the script extracts, and the one URL the run asks for is
    https://github.com/4Players/odin-sdk/releases/download/v, that version,
    /odin-xcframework.tgz. *)
Theorem C1_download_url (env : Env) (w : World) (text pre v post : string) :
  files w !! version_file env = Some text →
  occurrence text pre v post →
  ∃ pre' version post',
    first_occurrence text pre' version post' ∧
    (get_xcframework_version env w).1 = inr version ∧
    xcframework_url version =
      "https://github.com/4Players/odin-sdk/releases/download/v"
        +:+ version +:+ "/odin-xcframework.tgz" ∧
    requests (new_events w (main env w).2) = [xcframework_url version].
Proof.
  intros Hfile Hocc.
  destruct (first_match text) as [e|version] eqn:Hv.
  { apply first_match_None in Hv as [_ Hno]. by apply Hno in Hocc. }
  pose proof Hv as (pre' & post' & Hfirst)%first_match_Some.
  exists pre', version, post'. split_and!; [done| |done|].
  - by rewrite (get_xcframework_version_run env w text).
  - pose proof (requests_outcome env w _ _ _ (main_run env w)) as H.
    by rewrite Hfile, Hv in H.
Qed.

Lemma C1_download_url_witness :
  files sample_world !! version_file sample_env = Some swift_source ∧
  requests (new_events sample_world (main sample_env sample_world).2) = [release_url].
Proof.
  split; [reflexivity|].
  destruct (C1_download_url sample_env sample_world swift_source
              "public struct OdinKit { public static " "1.2.3" " }")
    as (pre' & version & post' & _ & Hget & Hurl & Hreq).
  - reflexivity.
  - eexists. split; [reflexivity|]. split_and!; [discriminate|reflexivity..].
  - rewrite Hreq. vm_compute in Hget. injection Hget as <-. reflexivity.
Defined.

(** C2. [get_xcframework_version] returns [v] exactly when the leftmost
    place where the text has the marker, at least one character other than
    the quote, and the closing quote, has [v] between its quotes: [v] is the
    text between the opening quote and the next quote, which is not part of
    it, and holds no quote itself. *)
Theorem C2_first_quoted_value (env : Env) (w : World) (text v : string) :
  files w !! version_file env = Some text →
  (get_xcframework_version env w).1 = inr v ↔
  ∃ pre post,
    text = pre +:+ "let version = " +:+ String dquote (v +:+ String dquote post) ∧
    has_quote v = false ∧ v ≠ "" ∧
    ∀ pre' v' post', occurrence text pre' v' post' →
      String.length pre ≤ String.length pre'.
Proof.
  intros Hfile. rewrite (get_xcframework_version_run env w text Hfile).
  rewrite first_match_Some. split.
  - intros (pre & post & (s & -> & Hv & Hq & ->) & Hfirst).
    exists pre, post. split_and!; try done.
  - intros (pre & post & -> & Hq & Hv & Hfirst). exists pre, post.
    split; [|done]. eexists. split; [done|]. split_and!; try done.
Qed.

Lemma C2_first_quoted_value_witness :
  files sample_world !! version_file sample_env = Some swift_source ∧
  (get_xcframework_version sample_env sample_world).1 = inr "1.2.3" ∧
  ∃ pre post,
    swift_source =
      pre +:+ "let version = " +:+ String dquote ("1.2.3" +:+ String dquote post) ∧
    has_quote "1.2.3" = false ∧ "1.2.3" ≠ "" ∧
    ∀ pre' v' post', occurrence swift_source pre' v' post' →
      String.length pre ≤ String.length pre'.
Proof.
  split; [reflexivity|]. split; [reflexivity|].
  apply (C2_first_quoted_value sample_env sample_world swift_source "1.2.3");
    reflexivity.
Defined.

(** C3, as the code has it. The version has to be there at least once:
    retrieval fails, with IndexError, exactly when the pattern occurs nowhere
    in the text; when it occurs, once or more often, retrieval succeeds, and
    with several matches the value of the first is returned. *)
Theorem C3_present_at_least_once (env : Env) (w : World) (text : string) :
  files w !! version_file env = Some text →
  ((∃ e, (get_xcframework_version env w).1 = inl e) ↔
   ∀ pre v post, ¬ occurrence text pre v post) ∧
  (∀ e, (get_xcframework_version env w).1 = inl e → e = IndexError) ∧
  (∀ v others, findall text = v :: others →
     (get_xcframework_version env w).1 = inr v).
Proof.
  intros Hfile. rewrite (get_xcframework_version_run env w text Hfile).
  split_and!.
  - split.
    + intros [e He]. by apply first_match_None in He as [_ ?].
    + intros Hno. exists IndexError. by apply first_match_None.
  - intros e He. by apply first_match_None in He as [? _].
  - intros v others Hall. unfold first_match. by rewrite Hall.
Qed.

Lemma C3_present_at_least_once_witness :
  files (world_with twice_source) !! version_file sample_env = Some twice_source ∧
  (get_xcframework_version sample_env (world_with twice_source)).1 = inr "1.0.0".
Proof.
  split; [reflexivity|].
  destruct (C3_present_at_least_once sample_env (world_with twice_source) twice_source)
    as (_ & _ & H); [reflexivity|].
  apply (H "1.0.0" ["2.0.0"]). reflexivity.
Defined.

(** C3 as stated fails: a file with the declaration twice does not make
    retrieval fail, it returns the first of the two values. *)
Lemma C3_twice_is_not_a_failure :
  files (world_with twice_source) !! version_file sample_env = Some twice_source ∧
  findall twice_source = ["1.0.0"; "2.0.0"] ∧
  (get_xcframework_version sample_env (world_with twice_source)).1 = inr "1.0.0" ∧
  ¬ ∃ e, (get_xcframework_version sample_env (world_with twice_source)).1 = inl e.
Proof.
  split_and!; [reflexivity..|]. intros [e He]. vm_compute in He. discriminate.
Qed.

(** C4. When the text of the version file has no match for the pattern, the
    run ends with IndexError, the failure of the FormatError kind, having
    done no more than open the version file: nothing was asked of the
    network and the files are as they were. *)
Theorem C4_no_match_fails_before_network (env : Env) (w : World) (text : string) :
  files w !! version_file env = Some text →
  (∀ pre v post, ¬ occurrence text pre v post) →
  (main env w).1 = inl IndexError ∧
  error_kind IndexError = Some FormatError ∧
  requests (new_events w (main env w).2) = [] ∧
  new_events w (main env w).2 = [EvOpenRead (version_file env)] ∧
  files (main env w).2 = files w.
Proof.
  intros Hfile Hno.
  assert (first_match text = inl IndexError) as Hv by by apply first_match_None.
  pose proof (main_run env w) as H.
  destruct H; try congruence; done.
Qed.

Lemma C4_no_match_fails_before_network_witness :
  files (world_with other_source) !! version_file sample_env = Some other_source ∧
  (∀ pre v post, ¬ occurrence other_source pre v post) ∧
  (main sample_env (world_with other_source)).1 = inl IndexError ∧
  requests (new_events (world_with other_source)
              (main sample_env (world_with other_source)).2) = [].
Proof.
  assert (∀ pre v post, ¬ occurrence other_source pre v post) as Hno
    by (apply no_occurrence_iff; reflexivity).
  split; [reflexivity|]. split; [exact Hno|].
  destruct (C4_no_match_fails_before_network sample_env
              (world_with other_source) other_source)
    as (H1 & _ & H2 & _); [reflexivity|exact Hno|].
  by split.
Defined.

(** C5. When [Sources/OdinKit.swift] under the script's directory is not
    there, the run ends with FileNotFoundError, the failure of the NotFound
    kind, having done no more than try to open that file: nothing was asked
    of the network and no file was written or removed. *)
Theorem C5_missing_version_file (env : Env) (w : World) :
  files w !! os_path_join (script_path env) ["Sources"; "OdinKit.swift"] = None →
  (main env w).1 = inl FileNotFoundError ∧
  error_kind FileNotFoundError = Some NotFound ∧
  requests (new_events w (main env w).2) = [] ∧
  new_events w (main env w).2 =
    [EvOpenRead (os_path_join (script_path env) ["Sources"; "OdinKit.swift"])] ∧
  files (main env w).2 = files w.
Proof.
  intros Hfile. fold (version_file env) in *.
  pose proof (main_run env w) as H.
  destruct H; try congruence; done.
Qed.

Lemma C5_missing_version_file_witness :
  files bare_world !! "/repo/Sources/OdinKit.swift" = None ∧
  (main sample_env bare_world).1 = inl FileNotFoundError ∧
  files (main sample_env bare_world).2 = files bare_world.
Proof.
  split; [reflexivity|].
  destruct (C5_missing_version_file sample_env bare_world) as (H1 & _ & _ & _ & H2);
    [reflexivity|].
  by split.
Defined.

(** C6, as the code has it. A temporary file that a run created is closed
    before the run ends, on every path: when the run completes, when the
    response breaks off, when the extraction fails. Closing unlinks the file:
    when the unlink goes through, the file is not on disk at the end of the
    run; when it does not, the run ends with that error and the file is
    still there. The run does create a temporary file on each of the paths
    named. *)
Theorem C6_temporary_file_closed_on_every_path (env : Env) (w : World) :
  (∀ tmp, EvTmpCreate tmp ∈ new_events w (main env w).2 →
     EvTmpDelete tmp ∈ new_events w (main env w).2 ∧
     (unlinkable env tmp = true → files (main env w).2 !! tmp = None) ∧
     (unlinkable env tmp = false →
      (main env w).1 = inl PermissionError ∧
      is_Some (files (main env w).2 !! tmp))) ∧
  ((main env w).1 = inr tt ∨ (main env w).1 = inl IncompleteRead ∨
   (main env w).1 = inl ReadError ∨ (main env w).1 = inl OSError ∨
   (main env w).1 = inl PermissionError →
   ∃ tmp, EvTmpCreate tmp ∈ new_events w (main env w).2).
Proof.
  pose proof (main_run env w) as H. destruct H; (split; [intros tmp0 Hin|intros Hr]).
  all: try (exfalso; in_trace).
  all: try (eexists; in_trace).
  all: assert (tmp0 = tmp) as -> by in_trace.
  all: split_and!; [in_trace|intros ?|intros ?]; try congruence.
  all: try (rewrite unpacked_lookup; by case_decide).
  all: split; [done|]; unfold stuck; rewrite put_all_lookup, lookup_insert_eq.
  all: by destruct (stored _ tmp).
Qed.

(** C6 as stated fails: when the unlink of the temporary file fails, the
    run ends with the file still on disk. *)
Lemma C6_unlink_failure_leaves_the_file :
  main stuck_env sample_world =
  (inl PermissionError,
   mkWorld
     (<["/repo/Frameworks/Odin.xcframework/libodin.a" := "code"]>
        (<["/repo/Frameworks/Odin.xcframework/Info.plist" := "plist"]>
           (<["/tmp/tmp1" := "tgz"]> (files sample_world))))
     [EvOpenRead "/repo/Sources/OdinKit.swift";
      EvPrint "Downloading Odin.xcframework version 1.2.3";
      EvUrlOpen release_url;
      EvTmpCreate "/tmp/tmp1"; EvTmpWrite "/tmp/tmp1" "tgz"; EvTarOpen "/tmp/tmp1";
      EvExtract "/repo/Frameworks/Odin.xcframework/Info.plist";
      EvExtract "/repo/Frameworks/Odin.xcframework/libodin.a";
      EvTarClose; EvTmpDelete "/tmp/tmp1"; EvResponseClose]) ∧
  files (main stuck_env sample_world).2 !! "/tmp/tmp1" = Some "tgz".
Proof. split; by vm_compute. Qed.








(** C10. The version goes into the URL as it stands in the file. Whatever
    the characters between the quotes are, as long as there is at least one
    and none is the quote, and the declaration is the first in the text, the
    run asks for the URL made of the fixed prefix, exactly these characters,
    and the fixed suffix: nothing is checked and nothing is escaped. *)
Theorem C10_version_spliced_verbatim (env : Env) (w : World) (pre v post : string) :
  v ≠ "" →
  has_quote v = false →
  (∀ pre' v' post',
     occurrence (pre +:+ version_marker +:+ v +:+ String dquote post) pre' v' post' →
     String.length pre ≤ String.length pre') →
  files w !! version_file env =
    Some (pre +:+ version_marker +:+ v +:+ String dquote post) →
  requests (new_events w (main env w).2) =
    ["https://github.com/4Players/odin-sdk/releases/download/v"
       +:+ v +:+ "/odin-xcframework.tgz"].
Proof.
  intros Hv Hq Hfirst Hfile.
  set (text := pre +:+ version_marker +:+ v +:+ String dquote post) in *.
  assert (first_match text = inr v) as Hfm.
  { apply first_match_Some. exists pre, post. split; [|done].
    eexists. split; [done|]. by split_and!. }
  pose proof (requests_outcome env w _ _ _ (main_run env w)) as H.
  by rewrite Hfile, Hfm in H.
Qed.

Lemma C10_version_spliced_verbatim_witness :
  files (world_with (version_marker +:+ odd_version +:+ String dquote ""))
    !! version_file open_env
  = Some (version_marker +:+ odd_version +:+ String dquote "") ∧
  requests (new_events (world_with (version_marker +:+ odd_version +:+ String dquote ""))
              (main open_env
                 (world_with (version_marker +:+ odd_version +:+ String dquote ""))).2) =
    ["https://github.com/4Players/odin-sdk/releases/download/v../a b/c?d/odin-xcframework.tgz"].
Proof.
  split; [reflexivity|].
  apply (C10_version_spliced_verbatim open_env
           (world_with (version_marker +:+ odd_version +:+ String dquote ""))
           "" odd_version "").
  - discriminate.
  - reflexivity.
  - intros pre' v' post' _. simpl. lia.
  - reflexivity.
Defined.

End Claims.

(** * Further properties of the script *)

Section More.
Import Examples.

(** ** The version pattern *)

Lemma count_quotes_app (s t : string) :
  count_quotes (s +:+ t) = count_quotes s + count_quotes t.
Proof.
  induction s as [|c s IH]; [done|]. rewrite string_app_cons. simpl. rewrite IH. lia.
Qed.

Lemma count_quotes_none (v : string) : has_quote v = false → count_quotes v = 0.
Proof.
  induction v as [|c v IH]; [done|]. simpl.
  intros [-> H]%orb_false_iff. by rewrite IH.
Qed.

(** An occurrence brings two quotes, the opening and the closing one. *)
Lemma occurrence_two_quotes (s pre v post : string) :
  occurrence s pre v post → 2 ≤ count_quotes s.
Proof.
  intros (s0 & -> & _ & _ & ->). rewrite !count_quotes_app. simpl.
  change (count_quotes version_marker) with 1.
  destruct (Ascii.eqb_spec dquote dquote); [lia|done].
Qed.

(** Two ways to cut one string: the shorter head is a head of the longer. *)
Lemma string_app_split (a b c d : string) :
  a +:+ b = c +:+ d → String.length a ≤ String.length c →
  ∃ e, c = a +:+ e ∧ b = e +:+ d.
Proof.
  revert c; induction a as [|x a IH]; intros c.
  - rewrite string_app_nil_l. intros -> _. by exists c.
  - destruct c as [|y c]; simpl; [lia|]. rewrite !string_app_cons.
    intros [= -> H] L. destruct (IH c H) as (e & -> & ->); [lia|]. by exists e.
Qed.

Lemma match_here_app (s x v r : string) :
  match_here s = Some (v, r) → match_here (s +:+ x) = Some (v, r +:+ x).
Proof.
  rewrite !match_here_iff. intros (Hv & Hq & ->). split_and!; [done..|].
  by rewrite !string_app_assoc, string_app_cons.
Qed.

(** Where no match starts and one starts further right, text put behind
    does not make one start. *)
Lemma match_here_app_None (c : ascii) (s x v : string) (l : list string) :
  match_here (String c s) = None → findall s = v :: l →
  match_here (String c s +:+ x) = None.
Proof.
  intros Hnone Hlater.
  destruct (match_here (String c s +:+ x)) as [[v2 r2]|] eqn:E; [exfalso|done].
  apply match_here_iff in E as (Hv2 & Hq2 & E).
  pose proof (findall_head s) as Hocc. rewrite Hlater in Hocc.
  destruct Hocc as (pre & post & [Hocc%occurrence_two_quotes _]).
  destruct (decide (String.length (version_marker +:+ v2 +:+ String dquote "")
                    ≤ String.length (String c s))) as [Hle|Hgt].
  - assert ((version_marker +:+ v2 +:+ String dquote "") +:+ r2 = String c s +:+ x) as E'.
    { by rewrite E, !string_app_assoc, string_app_cons. }
    apply string_app_split in E' as (e & E1 & _); [|done].
    assert (match_here (String c s) = Some (v2, e)) as Hsome; [|congruence].
    apply match_here_iff. split_and!; [done..|].
    by rewrite E1, !string_app_assoc, string_app_cons.
  - assert (String c s +:+ x = (version_marker +:+ v2) +:+ String dquote r2) as E'.
    { by rewrite E, !string_app_assoc. }
    apply string_app_split in E' as (e & E1 & _).
    2: { rewrite !string_length_app in *. simpl in *. lia. }
    assert (count_quotes (String c s) ≤ 1) as Hfew.
    { assert (count_quotes (version_marker +:+ v2) = 1) as Hone.
      { rewrite count_quotes_app, (count_quotes_none v2) by done. done. }
      rewrite E1, count_quotes_app in Hone. lia. }
    simpl in Hfew. lia.
Qed.

Lemma findall_app_head (s x v : string) (l : list string) :
  findall s = v :: l → ∃ l', findall (s +:+ x) = v :: l'.
Proof.
  revert v l; induction s as [|c s IH]; intros v l.
  - by rewrite findall_equation_1.
  - intros H. pose proof H as H0. rewrite findall_cons in H.
    rewrite string_app_cons, findall_cons, <- string_app_cons.
    destruct (match_here (String c s)) as [[v1 r1]|] eqn:E.
    + injection H as -> _. rewrite (match_here_app _ x _ _ E). by eexists.
    + rewrite (match_here_app_None c s x v l E H). by eapply IH.
Qed.

(** X1. What stands behind the text never changes the version taken from it:
    when a text gives a version, the text with anything put behind it gives
    the same version. *)
Theorem X1_later_text_is_ignored (text extra v : string) :
  first_match text = inr v → first_match (text +:+ extra) = inr v.
Proof.
  unfold first_match. destruct (findall text) as [|v0 l] eqn:E; [done|].
  intros [= ->]. destruct (findall_app_head text extra v l E) as [l' ->]. done.
Qed.

Lemma X1_later_text_is_ignored_witness :
  first_match swift_source = inr "1.2.3" ∧
  first_match (swift_source +:+ twice_source) = inr "1.2.3".
Proof.
  split; [reflexivity|].
  apply (X1_later_text_is_ignored swift_source twice_source "1.2.3"). reflexivity.
Defined.

(** X2. [re.findall] goes on right behind a match: at the leftmost place
    where the pattern occurs it gives the value between the quotes, followed
    by what it finds in the text behind the closing quote. *)
Theorem X2_findall_resumes_behind_match (text pre v post : string) :
  first_occurrence text pre v post → findall text = v :: findall post.
Proof.
  revert text; induction pre as [|c pre IH]; intros text [Hocc Hfirst].
  - apply occurrence_here in Hocc. pose proof Hocc as Hm%match_here_iff.
    destruct text as [|c s]; [by apply pattern_at_nonempty in Hocc|].
    by rewrite findall_cons, Hm.
  - pose proof Hocc as (s0 & -> & Hpat). rewrite string_app_cons in *.
    rewrite findall_cons.
    destruct (match_here (String c (pre +:+ s0))) as [[v2 r2]|] eqn:E.
    + apply match_here_iff, occurrence_here, Hfirst in E. simpl in E. lia.
    + apply IH. split.
      * by apply occurrence_later in Hocc.
      * intros pre' v' post' H. apply (occurrence_later c) in H.
        apply Hfirst in H. simpl in H. lia.
Qed.

Lemma X2_findall_resumes_behind_match_witness :
  first_occurrence twice_source "" "1.0.0" ("; let version = " +:+ quoted "2.0.0") ∧
  findall twice_source = "1.0.0" :: findall ("; let version = " +:+ quoted "2.0.0").
Proof.
  assert (first_occurrence twice_source "" "1.0.0"
            ("; let version = " +:+ quoted "2.0.0")) as H.
  { split.
    - eexists. split; [reflexivity|]. split_and!; [discriminate|reflexivity..].
    - intros. simpl. lia. }
  split; [exact H|].
  exact (X2_findall_resumes_behind_match twice_source "" "1.0.0" _ H).
Defined.

(** ** Where the script looks and writes *)

Lemma script_prefix_join (env : Env) (b : string) :
  startswith_sep b = false → join2 (script_path env) b = script_prefix env +:+ b.
Proof.
  intros Hb. unfold join2, script_prefix. rewrite Hb.
  destruct ((script_path env =? "")%string || endswith_sep (script_path env))%bool;
    [done|by rewrite string_app_assoc].
Qed.

Lemma version_file_prefix (env : Env) :
  version_file env = script_prefix env +:+ "Sources/OdinKit.swift".
Proof.
  unfold version_file, os_path_join. simpl.
  rewrite script_prefix_join by done. unfold join2. simpl.
  rewrite endswith_sep_app by done.
  assert ((script_prefix env +:+ "Sources" =? "")%string = false) as ->.
  { apply String.eqb_neq. intros [_ [=]]%string_app_eq_nil. }
  simpl. by rewrite string_app_assoc.
Qed.

Lemma frameworks_dir_prefix (env : Env) :
  frameworks_dir env = script_prefix env +:+ "Frameworks".
Proof. unfold frameworks_dir, os_path_join. simpl. by rewrite script_prefix_join. Qed.

(** X3. The version file and the output directory hang off the same prefix:
    the directory of the script followed by one separator, the directory as
    it is when it already ends in a separator, and nothing at all when the
    directory is the empty string, so that both are then looked up from the
    current directory. *)
Theorem X3_paths_from_script_directory (env : Env) :
  version_file env = script_prefix env +:+ "Sources/OdinKit.swift" ∧
  frameworks_dir env = script_prefix env +:+ "Frameworks" ∧
  (script_path env = "" → script_prefix env = "") ∧
  (endswith_sep (script_path env) = true → script_prefix env = script_path env) ∧
  (script_path env ≠ "" → endswith_sep (script_path env) = false →
   script_prefix env = script_path env +:+ "/").
Proof.
  split_and!.
  - apply version_file_prefix.
  - apply frameworks_dir_prefix.
  - unfold script_prefix. by intros ->.
  - unfold script_prefix. intros ->. by rewrite orb_true_r.
  - unfold script_prefix. intros Hne%String.eqb_neq ->. by rewrite Hne.
Qed.

(** X7. When the request is refused, the run ends with URLError, a failure
    of the NetworkError kind, after reading the version, announcing it and
    asking once: no temporary file is created, nothing is written, and
    completion is not reported. *)
Theorem X7_refused_request (env : Env) (w : World) (text v : string) :
  files w !! version_file env = Some text →
  first_match text = inr v →
  network env (xcframework_url v) = Refused →
  (main env w).1 = inl URLError ∧
  error_kind URLError = Some NetworkError ∧
  new_events w (main env w).2 =
    [EvOpenRead (version_file env);
     EvPrint ("Downloading Odin.xcframework version " +:+ v);
     EvUrlOpen (xcframework_url v)] ∧
  files (main env w).2 = files w.
Proof.
  intros Hfile Hv Hnet. pose proof (main_run env w) as H.
  destruct H; try congruence.
  assert (v0 = v) as -> by congruence. done.
Qed.

Lemma X7_refused_request_witness :
  files sample_world !! version_file refusing_env = Some swift_source ∧
  first_match swift_source = inr "1.2.3" ∧
  network refusing_env (xcframework_url "1.2.3") = Refused ∧
  (main refusing_env sample_world).1 = inl URLError ∧
  files (main refusing_env sample_world).2 = files sample_world.
Proof.
  do 3 (split; [reflexivity|]).
  destruct (X7_refused_request refusing_env sample_world swift_source "1.2.3")
    as (H1 & _ & _ & H2); try reflexivity.
  by split.
Defined.



(** ** What a run shows *)

Lemma get_xcframework_version_missing (env : Env) (w : World) :
  files w !! version_file env = None →
  (get_xcframework_version env w).1 = inl FileNotFoundError.
Proof.
  intros H. destruct w as [fs tr]. simpl in H.
  unfold get_xcframework_version, open_read, read_files, emit, raise,
    mbind, mret, IO_bind, IO_ret. simpl. by rewrite H.
Qed.

Lemma prints_app (t1 t2 : list Event) : prints (t1 ++ t2) = prints t1 ++ prints t2.
Proof. apply omap_app. Qed.

Lemma prints_extract (l : list string) : prints (EvExtract <$> l) = [].
Proof. induction l as [|p l IH]; [done|]. simpl. apply IH. Qed.

(** X9. A run prints at most two lines. It prints nothing when it gets no
    version; otherwise it prints the line announcing the version, and behind
    it the line reporting completion exactly when it completes. No failure
    prints a line of its own. *)
Theorem X9_printed_lines (env : Env) (w : World) :
  prints (new_events w (main env w).2) =
  match (get_xcframework_version env w).1 with
  | inl _ => []
  | inr v =>
      ("Downloading Odin.xcframework version " +:+ v)
        :: match (main env w).1 with
           | inr _ => ["All done :-)"]
           | inl _ => []
           end
  end.
Proof.
  pose proof (main_run env w) as H. destruct H.
  1: rewrite get_xcframework_version_missing by done.
  2-12: rewrite (get_xcframework_version_run env w text) by done.
  all: repeat match goal with H : first_match _ = _ |- _ => rewrite H; clear H end.
  all: by rewrite ?prints_app, ?prints_extract.
Qed.

(** X10. The response is closed whenever the request was answered, whatever
    happens afterwards, and only then: for the URL a run asks for, the trace
    has the closing of the response exactly when the network did not refuse
    the request. *)
Theorem X10_response_closed_when_opened (env : Env) (w : World) (url : string) :
  EvUrlOpen url ∈ new_events w (main env w).2 →
  EvResponseClose ∈ new_events w (main env w).2 ↔ network env url ≠ Refused.
Proof.
  pose proof (main_run env w) as H. destruct H; intros Hin.
  1-2: exfalso; in_trace.
  all: assert (url = xcframework_url v) as -> by in_trace.
  all: match goal with H : network _ _ = _ |- _ => rewrite H end.
  all: split; [intros Hc; try done; try (exfalso; in_trace)
              |intros Hn; try done; try in_trace].
Qed.

Lemma X10_response_closed_when_opened_witness :
  EvUrlOpen release_url ∈ new_events sample_world (main flaky_env sample_world).2 ∧
  EvResponseClose ∈ new_events sample_world (main flaky_env sample_world).2.
Proof.
  assert (EvUrlOpen release_url
            ∈ new_events sample_world (main flaky_env sample_world).2) as H.
  { apply (bool_decide_unpack _). vm_compute. exact I. }
  split; [exact H|].
  apply (X10_response_closed_when_opened flaky_env sample_world release_url H).
  discriminate.
Defined.

(** X11. When the extraction fails on a member, the archive has been opened
    and is never closed: [tar.close()] stands behind [extractall] and is in
    no [with] block. A run that completes has closed it. *)
Theorem X11_archive_left_open_on_failure (env : Env) (w : World)
    (text v body : string) (members : list (string * string)) :
  files w !! version_file env = Some text →
  first_match text = inr v →
  network env (xcframework_url v) = Response body true →
  is_Some (pick_tmp_name env (files w)) →
  tar_members env (on_disk env body) = Some members →
  (all_writable env members (frameworks_dir env) = false →
   (∃ tmp, EvTarOpen tmp ∈ new_events w (main env w).2) ∧
   EvTarClose ∉ new_events w (main env w).2) ∧
  ((main env w).1 = inr tt → EvTarClose ∈ new_events w (main env w).2).
Proof.
  intros Hfile Hv Hnet [tmp0 Htmp] Htar. pose proof (main_run env w) as H.
  destruct H; try congruence.
  all: assert (members0 = members) as -> by congruence.
  all: split; [intros Hall|intros Hok]; try congruence.
  all: try (split; [eexists; in_trace|intros Hin; in_trace]).
  all: in_trace.
Qed.

Lemma X11_archive_left_open_on_failure_witness :
  files sample_world !! version_file readonly_env = Some swift_source ∧
  first_match swift_source = inr "1.2.3" ∧
  network readonly_env (xcframework_url "1.2.3") = Response "tgz" true ∧
  is_Some (pick_tmp_name readonly_env (files sample_world)) ∧
  tar_members readonly_env (on_disk readonly_env "tgz") = Some release_members ∧
  all_writable readonly_env release_members (frameworks_dir readonly_env) = false ∧
  (∃ tmp, EvTarOpen tmp ∈ new_events sample_world (main readonly_env sample_world).2) ∧
  EvTarClose ∉ new_events sample_world (main readonly_env sample_world).2.
Proof.
  do 3 (split; [reflexivity|]). split; [by eexists|]. do 2 (split; [reflexivity|]).
  destruct (X11_archive_left_open_on_failure readonly_env sample_world swift_source
              "1.2.3" "tgz" release_members) as [H _]; try reflexivity; [by eexists|].
  by apply H.
Defined.

(** ** A run that completes *)

Lemma placed_targets (members : list (string * string)) (path : string) :
  (placed members path).*1 = targets members path.
Proof. unfold placed, targets. by rewrite <- list_fmap_compose. Qed.

(** X12. On a run that completes the members are extracted in the order of
    the archive, each once, between the opening and the closing of the
    archive; the whole of what the run does is: read the version file,
    announce the version, ask for the URL, create the temporary file under
    a name that was free, fill it, open it as an archive, extract, close the
    archive, delete the temporary file, close the response, report. *)
Theorem X12_completed_run_in_order (env : Env) (w : World) (text v body : string)
    (members : list (string * string)) :
  files w !! version_file env = Some text →
  first_match text = inr v →
  network env (xcframework_url v) = Response body true →
  tar_members env (on_disk env body) = Some members →
  (main env w).1 = inr tt →
  ∃ tmp,
    files w !! tmp = None ∧
    new_events w (main env w).2 =
      [EvOpenRead (version_file env);
       EvPrint ("Downloading Odin.xcframework version " +:+ v);
       EvUrlOpen (xcframework_url v);
       EvTmpCreate tmp; EvTmpWrite tmp body; EvTarOpen tmp]
      ++ (EvExtract <$> targets members (frameworks_dir env))
      ++ [EvTarClose; EvTmpDelete tmp; EvResponseClose; EvPrint "All done :-)"].
Proof.
  intros Hfile Hv Hnet Htar Hok.
  destruct (main_done env w Hok)
    as (text0 & v0 & body0 & tmp & members0 & H1 & H2 & Hnet0 & Htmp & Htar0 & _
        & _ & Hev).
  assert (v0 = v) as -> by congruence.
  assert (body0 = body) as -> by congruence.
  assert (members0 = members) as -> by congruence.
  exists tmp. split; [by apply pick_tmp_name_fresh in Htmp|].
  by rewrite <- placed_targets.
Qed.

Lemma X12_completed_run_in_order_witness :
  files sample_world !! version_file sample_env = Some swift_source ∧
  first_match swift_source = inr "1.2.3" ∧
  network sample_env (xcframework_url "1.2.3") = Response "tgz" true ∧
  tar_members sample_env (on_disk sample_env "tgz") = Some release_members ∧
  (main sample_env sample_world).1 = inr tt ∧
  ∃ tmp,
    files sample_world !! tmp = None ∧
    new_events sample_world (main sample_env sample_world).2 =
      [EvOpenRead (version_file sample_env);
       EvPrint ("Downloading Odin.xcframework version " +:+ "1.2.3");
       EvUrlOpen (xcframework_url "1.2.3");
       EvTmpCreate tmp; EvTmpWrite tmp "tgz"; EvTarOpen tmp]
      ++ (EvExtract <$> targets release_members (frameworks_dir sample_env))
      ++ [EvTarClose; EvTmpDelete tmp; EvResponseClose; EvPrint "All done :-)"].
Proof.
  do 5 (split; [reflexivity|]).
  apply (X12_completed_run_in_order sample_env sample_world swift_source "1.2.3"
           "tgz" release_members); reflexivity.
Defined.

End More.
